(** * ydb-go-sdk: the retry observer of package [log] and its callers

    This development embeds [log.Retry] (log/retry.go), the structured
    logger that renders the life cycle of a retry loop, and the example
    program that drives [SessionPool.Retry].  The logger is written in Go
    as three nested closures; here each closure is a named function over
    an explicit world (wall clock and log sink). *)

From Stdlib Require Import String Ascii ZArith List Bool Lia PeanoNat Sorted.
Import ListNotations.

Local Open Scope string_scope.
Local Open Scope list_scope.
Local Open Scope Z_scope.

(** ** Log lines *)

(** Severities of the [Logger] interface that [log.Retry] uses
    ([Tracef], [Debugf], [Errorf]). *)
Inductive Level : Type := TRACE | DEBUG | ERROR.

(** The double quote character that the format strings contain. *)
Definition dq : string := String (ascii_of_nat 34) EmptyString.

(** Operands handed to a [...f] logging call.  [ADuration] is a
    [time.Duration] (nanoseconds), [AError] a non-nil [error]. *)
Inductive Arg (error : Type) : Type :=
| AString (s : string)
| ABool (b : bool)
| AInt (n : Z)
| ADuration (d : Z)
| AError (e : error).

Arguments AString {error} s.
Arguments ABool {error} b.
Arguments AInt {error} n.
Arguments ADuration {error} d.
Arguments AError {error} e.

(** One call of [l.Tracef], [l.Debugf] or [l.Errorf]: the severity, the
    logger it was called on, the format and the operands. *)
Record Entry (Logger error : Type) : Type := mkEntry {
  level : Level;
  via : Logger;
  format : string;
  args : list (Arg error)
}.

Arguments mkEntry {Logger error}.
Arguments level {Logger error}.
Arguments via {Logger error}.
Arguments format {Logger error}.
Arguments args {Logger error}.

(** *** Reading a line back

    Go's [fmt] consumes the operands in the order of the verbs of the
    format.  [labels] lists, for every verb, the key written in front of
    it (as in [key:%v]); [fields] pairs keys and operands. *)

Definition is_char (n : nat) (c : ascii) : bool := Nat.eqb (nat_of_ascii c) n.

Fixpoint labels_from (cur : string) (s : string) : list string :=
  match s with
  | EmptyString => []
  | String c rest =>
      if is_char 37 c then                      (* percent: a verb follows *)
        cur :: match rest with
               | EmptyString => []
               | String _ rest' => labels_from EmptyString rest'
               end
      else if is_char 123 c || is_char 44 c then (* brace and comma open a key *)
        labels_from EmptyString rest
      else if is_char 58 c || is_char 34 c || is_char 125 c then
        labels_from cur rest                    (* colon, quote, closing brace *)
      else labels_from (cur ++ String c EmptyString)%string rest
  end.

Definition labels (fmt : string) : list string := labels_from EmptyString fmt.

Definition fields {Logger error} (e : Entry Logger error)
  : list (string * Arg error) :=
  combine (labels (format e)) (args e).

Fixpoint assoc {A} (k : string) (l : list (string * A)) : option A :=
  match l with
  | [] => None
  | (k', a) :: l' => if String.eqb k k' then Some a else assoc k l'
  end.

Definition field {Logger error} (k : string) (e : Entry Logger error)
  : option (Arg error) :=
  assoc k (fields e).

(** ** What retry.go imports *)

(** [Logger.WithName]. *)
Class LoggerAPI (Logger : Type) : Type := {
  WithName : Logger -> string -> Logger
}.

(** [errors.IsYdb], [retry.Check] and the three methods of the mode that
    [retry.Check] returns. *)
Class Classifier (error : Type) : Type := {
  RetryMode : Type;
  IsYdb : error -> bool;
  Check : error -> RetryMode;
  MustRetry : RetryMode -> bool -> bool;
  StatusCode : RetryMode -> Z;
  MustDeleteSession : RetryMode -> bool
}.

(** The event records of package [trace], with the fields retry.go reads.
    A nil [error] is [None]. *)
Record RetryLoopStartInfo : Type := mkStart {
  ID : string;
  Idempotent : bool
}.

Record RetryLoopIntermediateInfo (error : Type) : Type := mkIntermediate {
  IError : option error
}.

Record RetryLoopDoneInfo (error : Type) : Type := mkDone {
  Attempts : Z;
  DError : option error
}.

Arguments mkIntermediate {error}.
Arguments IError {error}.
Arguments mkDone {error}.
Arguments Attempts {error}.
Arguments DError {error}.

(** ** The world the closures run in *)

Module Log.

Section World.
Context {Logger error : Type}.

(** [clock] is the reading [time.Now] returns (nanoseconds on the
    monotonic clock); [sink] holds the lines logged so far, oldest
    first. *)
Record World : Type := mkWorld {
  clock : Z;
  sink : list (Entry Logger error)
}.

Definition M (A : Type) : Type := World -> A * World.

Definition ret {A} (a : A) : M A := fun w => (a, w).

Definition bind {A B} (m : M A) (f : A -> M B) : M B :=
  fun w => let (a, w') := m w in f a w'.

Definition time_Now : M Z := fun w => (clock w, w).

(** [time.Since(start)], a [time.Duration]; the readings are taken to
    stay within the range of a duration. *)
Definition time_Since (start : Z) : M Z := fun w => (clock w - start, w).

Definition emit (e : Entry Logger error) : M unit :=
  fun w => (tt, mkWorld (clock w) (sink w ++ [e])).

Definition Tracef (l : Logger) (fmt : string) (a : list (Arg error)) : M unit :=
  emit (mkEntry TRACE l fmt a).

Definition Debugf (l : Logger) (fmt : string) (a : list (Arg error)) : M unit :=
  emit (mkEntry DEBUG l fmt a).

Definition Errorf (l : Logger) (fmt : string) (a : list (Arg error)) : M unit :=
  emit (mkEntry ERROR l fmt a).

(** The environment lets time pass between two calls of the observer. *)
Definition at_time (t : Z) (w : World) : World := mkWorld t (sink w).

(** The lines added to the sink between [w] and [w']. *)
Definition added (w w' : World) : list (Entry Logger error) :=
  skipn (length (sink w)) (sink w').

End World.

Arguments World : clear implicits.
Arguments M : clear implicits.

Declare Scope logm_scope.
Delimit Scope logm_scope with logm.
Notation "x <- m ;; k" := (bind m (fun x => k))
  (at level 61, m at next level, right associativity) : logm_scope.
Notation "m ;;; k" := (bind m (fun _ => k))
  (at level 61, right associativity) : logm_scope.

(** ** [trace.Retry] and the three closures of [log.Retry] *)

Section Retry.
Context {Logger error : Type} {LA : LoggerAPI Logger} {CL : Classifier error}.

(** The bit [trace.RetryEvents] of [trace.Details]. *)
Variable RetryEvents : Z.

Definition DoneHandler : Type :=
  RetryLoopDoneInfo error -> M Logger error unit.

Definition IntermediateHandler : Type :=
  RetryLoopIntermediateInfo error -> M Logger error DoneHandler.

Definition StartHandler : Type :=
  RetryLoopStartInfo -> M Logger error IntermediateHandler.

(** [trace.Retry]: the callback is nil until it is set. *)
Record trace_Retry : Type := mkTrace {
  OnRetry : option StartHandler
}.

Definition fmt_start : string :=
  ("retry start {id:" ++ dq ++ "%s" ++ dq ++ ",idempotent:%v}")%string.

Definition fmt_attempt_done : string :=
  ("retry attempt done {id:" ++ dq ++ "%s" ++ dq
     ++ ",latency:" ++ dq ++ "%v" ++ dq ++ "}")%string.

Definition fmt_attempt_failed : string :=
  ("retry attempt failed {id:" ++ dq ++ "%s" ++ dq
     ++ ",latency:" ++ dq ++ "%v" ++ dq
     ++ ",error:" ++ dq ++ "%s" ++ dq
     ++ ",retryable:%v,code:%d,deleteSession:%v}")%string.

Definition fmt_done : string :=
  ("retry done {id:" ++ dq ++ "%s" ++ dq
     ++ ",latency:" ++ dq ++ "%v" ++ dq ++ ",attempts:%v}")%string.

Definition fmt_failed : string :=
  ("retry failed {id:" ++ dq ++ "%s" ++ dq
     ++ ",latency:" ++ dq ++ "%v" ++ dq
     ++ ",attempts:%v,error:" ++ dq ++ "%s" ++ dq
     ++ ",retryable:%v,code:%d,deleteSession:%v}")%string.

(** Lines 47-70: the closure that receives [trace.RetryLoopDoneInfo]. *)
Definition onDone (l : Logger) (id : string) (idempotent : bool) (start : Z)
  : DoneHandler :=
  fun info =>
    match DError info with
    | None =>
        (d <- time_Since start ;;
         Tracef l fmt_done [AString id; ADuration d; AInt (Attempts info)])%logm
    | Some err =>
        let f := if negb (IsYdb err) then Debugf l else Errorf l in
        let m := Check err in
        (d <- time_Since start ;;
         f fmt_failed
           [AString id; ADuration d; AInt (Attempts info); AError err;
            ABool (MustRetry m idempotent); AInt (StatusCode m);
            ABool (MustDeleteSession m)])%logm
    end.

(** Lines 26-71: the closure that receives
    [trace.RetryLoopIntermediateInfo]. *)
Definition onIntermediate (l : Logger) (id : string) (idempotent : bool)
    (start : Z) : IntermediateHandler :=
  fun info =>
    (match IError info with
     | None =>
         d <- time_Since start ;;
         Tracef l fmt_attempt_done [AString id; ADuration d]
     | Some err =>
         let f := if negb (IsYdb err) then Debugf l else Errorf l in
         let m := Check err in
         d <- time_Since start ;;
         f fmt_attempt_failed
           [AString id; ADuration d; AError err;
            ABool (MustRetry m idempotent); AInt (StatusCode m);
            ABool (MustDeleteSession m)]
     end ;;;
     ret (onDone l id idempotent start))%logm.

(** Lines 15-72: the closure stored in [t.OnRetry]. *)
Definition onRetry (l : Logger) : StartHandler :=
  fun info =>
    let id := ID info in
    let idempotent := Idempotent info in
    (Tracef l fmt_start [AString id; ABool idempotent] ;;;
     start <- time_Now ;;
     ret (onIntermediate l id idempotent start))%logm.

(** [func Retry(l Logger, details trace.Details) (t trace.Retry)]. *)
Definition Retry (l : Logger) (details : Z) : trace_Retry :=
  if negb (Z.land details RetryEvents =? 0)
  then mkTrace (Some (onRetry (WithName l "retry")))
  else mkTrace None.

(** *** The lines, spelled out

    What the handlers above add to the sink in world [w], for a loop
    whose start handler read the clock at [start]. *)

Definition attempt_failed_line (l : Logger) (id : string) (idempotent : bool)
    (start : Z) (e : error) (w : World Logger error) : Entry Logger error :=
  mkEntry (if IsYdb e then ERROR else DEBUG) l fmt_attempt_failed
    [AString id; ADuration (clock w - start); AError e;
     ABool (MustRetry (Check e) idempotent); AInt (StatusCode (Check e));
     ABool (MustDeleteSession (Check e))].

Definition attempt_done_line (l : Logger) (id : string) (start : Z)
    (w : World Logger error) : Entry Logger error :=
  mkEntry TRACE l fmt_attempt_done
    [AString id; ADuration (clock w - start)].

Definition failed_line (l : Logger) (id : string) (idempotent : bool)
    (start : Z) (n : Z) (e : error) (w : World Logger error)
  : Entry Logger error :=
  mkEntry (if IsYdb e then ERROR else DEBUG) l fmt_failed
    [AString id; ADuration (clock w - start); AInt n; AError e;
     ABool (MustRetry (Check e) idempotent); AInt (StatusCode (Check e));
     ABool (MustDeleteSession (Check e))].

Definition done_line (l : Logger) (id : string) (start : Z) (n : Z)
    (w : World Logger error) : Entry Logger error :=
  mkEntry TRACE l fmt_done
    [AString id; ADuration (clock w - start); AInt n].

(** The observer that [Retry l details] installs, called with the
    loop-start event [info] in world [w0], returns the attempt handler
    [ah] and leaves world [w1]. *)
Definition started (l : Logger) (details : Z) (info : RetryLoopStartInfo)
    (w0 : World Logger error) (ah : IntermediateHandler)
    (w1 : World Logger error) : Prop :=
  exists h, OnRetry (Retry l details) = Some h /\ h info w0 = (ah, w1).

(** The reading of C2: the latency operand of an attempt line is the
    duration of that attempt alone, whenever the attempt ran from
    [t_begin] to [t_end] and its outcome is reported at [t_end]. *)
Definition latency_is_per_attempt : Prop :=
  forall l details info w0 ah w1,
    started l details info w0 ah w1 ->
    forall t_begin t_end res w line,
      clock w0 <= t_begin <= t_end ->
      added w (snd (ah (mkIntermediate res) (at_time t_end w))) = [line] ->
      field "latency" line = Some (ADuration (t_end - t_begin)).

End Retry.

End Log.

(** ** Errors and their classification *)

Module Classify.

(** Modelled from the spec: the kinds of backend error that sections
    4.2 and 7 name.  Package [errors] is not among the sources. *)
Inductive BackendKind : Type :=
| Overloaded
| Unavailable
| SessionExpired
| WriteConflict
| BadRequest
| PermissionDenied
| Unrecognized.

(** Modelled from the spec: an error value is a backend error with its
    status code, a local (non-backend) error, or a cancellation
    (section 7).  Package [errors] is not among the sources. *)
Inductive error : Type :=
| Backend (k : BackendKind) (code : Z)
| Local (msg : string)
| Cancelled.

(** Modelled from the spec: the three ways section 4.2 lets retryability
    depend on the idempotency of the operation. *)
Inductive Verdict : Type := Always | IfIdempotent | Never.

(** Modelled from the spec: the Classification of section 3. *)
Record Classification : Type := mkClass {
  isBackendError : bool;
  verdict : Verdict;
  statusCode : Z;
  mustDiscardSession : bool
}.

Definition isRetryable (c : Classification) (idempotent : bool) : bool :=
  match verdict c with
  | Always => true
  | IfIdempotent => idempotent
  | Never => false
  end.

(** Modelled from the spec: [Classify] of section 4.2 ([retry.Check] is
    not among the sources), with the default configuration (no
    overrides).  Overload, unavailability and a lost session are always
    retryable; a conflicting write only for an idempotent operation;
    everything else never.  Only a lost session is discarded. *)
Definition Classify (e : error) : Classification :=
  match e with
  | Backend Overloaded c => mkClass true Always c false
  | Backend Unavailable c => mkClass true Always c false
  | Backend SessionExpired c => mkClass true Always c true
  | Backend WriteConflict c => mkClass true IfIdempotent c false
  | Backend BadRequest c => mkClass true Never c false
  | Backend PermissionDenied c => mkClass true Never c false
  | Backend Unrecognized c => mkClass true Never c false
  | Local _ => mkClass false Never 0 false
  | Cancelled => mkClass false Never 0 false
  end.

Definition conditional (e : error) : bool :=
  match verdict (Classify e) with IfIdempotent => true | _ => false end.

#[export] Instance classifier : Classifier error := {
  RetryMode := Classification;
  IsYdb := fun e => isBackendError (Classify e);
  Check := Classify;
  MustRetry := isRetryable;
  StatusCode := statusCode;
  MustDeleteSession := mustDiscardSession
}.

(** A logger that is its chain of names. *)
#[export] Instance named_logger : LoggerAPI (list string) := {
  WithName := fun l n => l ++ [n]
}.

End Classify.

(** ** The retry orchestrator *)

Module Orchestrator.
Import Classify.

(** Modelled from the spec: the kinds of terminal error of section 7. *)
Inductive Kind : Type :=
| Permanent
| NotRetriedNonIdempotent
| Cancellation
| Exhaustion.

(** Modelled from the spec: the terminal error [Run] returns, with its
    kind, the last underlying error and the number of attempts
    (section 7). *)
Record TerminalError : Type := mkTerminal {
  kind : Kind;
  last : error;
  attemptCount : nat
}.

(** Modelled from the spec: the three stages of the observer chain
    (sections 3 and 4.4).  An attempt event carries the sequence number
    of its attempt (1-based); latencies are left out. *)
Inductive Event : Type :=
| OnLoopStart (id : string) (idempotent : bool)
| AttemptHandler (seq : nat) (err : option error)
| OnLoopDone (err : option error) (attempts : nat).

(** Modelled from the spec: what one [Run] does to its collaborators
    (section 6), in order. *)
Inductive Action : Type :=
| Acquire (ok : bool)
| Invoke (seq : nat)
| Release
| Discard
| Sleep
| Notify (e : Event).

(** What the collaborators answer in the [n]-th iteration: the pool
    ([None]: a session), the operation body, and the execution context
    when the policy is consulted and during the backoff. *)
Record Iteration : Type := mkIteration {
  acquire : option error;
  body : option error;
  cancelled : bool;
  cancelledInBackoff : bool
}.

Definition Env : Type := nat -> Iteration.

Definition failure (it : Iteration) : option error :=
  match acquire it with
  | Some e => Some e
  | None => body it
  end.

Record Outcome : Type := mkOutcome {
  result : option TerminalError;
  iterations : nat;
  actions : list Action
}.

Definition prepend (pre : list Action) (o : Outcome) : Outcome :=
  mkOutcome (result o) (iterations o) (pre ++ actions o).

Fixpoint events (l : list Action) : list Event :=
  match l with
  | [] => []
  | Notify e :: l' => e :: events l'
  | _ :: l' => events l'
  end.

Fixpoint invocations (l : list Action) : nat :=
  match l with
  | [] => O
  | Invoke _ :: l' => S (invocations l')
  | _ :: l' => invocations l'
  end.

Section Run.
(** The spec subjects a failed acquisition to the retry policy but
    does not say whether the observer is told of it as an attempt;
    the flag keeps both readings. *)
Variable acquireFailureIsAttempt : bool.
Variable maxAttempts : nat.
Variable id : string.
Variable idempotent : bool.
Variable env : Env.

(** Modelled from the spec: the stop conditions of [ShouldContinue]
    (section 4.3; the policy is not among the sources).  The backoff
    it also computes is random and left out. *)
Definition ShouldContinue (c : Classification) (attempts : nat)
    (isCancelled : bool) : bool :=
  negb isCancelled && isRetryable c idempotent
    && (attempts <? maxAttempts)%nat.

(** Modelled from the spec: the kind of the terminal error when the
    policy says stop, by the taxonomy of section 7. *)
Definition stopKind (c : Classification) (isCancelled : bool) : Kind :=
  if isCancelled then Cancellation
  else if isRetryable c idempotent then Exhaustion
  else if isRetryable c true then NotRetriedNonIdempotent
  else Permanent.

(** Modelled from the spec: what a failed iteration does before the
    policy is consulted (the error branch of section 4.1):
    the acquisition, the body if a session was obtained, the attempt
    event, and the session dropped or given back. *)
Definition failedAttempt (n : nat) (invoked : bool) (e : error)
  : list Action :=
  (if invoked then [Acquire true; Invoke n] else [Acquire false])
  ++ (if invoked || acquireFailureIsAttempt
      then [Notify (AttemptHandler n (Some e))] else [])
  ++ (if invoked
      then [if mustDiscardSession (Classify e) then Discard else Release]
      else []).

(** The error branch of an iteration; [next] is the rest of the loop. *)
Definition afterError (n : nat) (it : Iteration) (invoked : bool)
    (e : error) (next : option Outcome) : option Outcome :=
  let c := Classify e in
  let here := failedAttempt n invoked e in
  if ShouldContinue c n (cancelled it) then
    if cancelledInBackoff it then
      Some (mkOutcome (Some (mkTerminal Cancellation e n)) n
              (here ++ [Sleep; Notify (OnLoopDone (Some Cancelled) n)]))
    else option_map (prepend (here ++ [Sleep])) next
  else
    Some (mkOutcome (Some (mkTerminal (stopKind c (cancelled it)) e n)) n
            (here ++ [Notify (OnLoopDone (Some e) n)])).

(** Modelled from the spec: the loop of [Run] (section 4.1; the
    orchestrator is not among the sources), from iteration [n] on. *)
Fixpoint loop (fuel : nat) (n : nat) : option Outcome :=
  match fuel with
  | O => None
  | S fuel' =>
      let it := env n in
      match acquire it with
      | Some e => afterError n it false e (loop fuel' (S n))
      | None =>
          match body it with
          | Some e => afterError n it true e (loop fuel' (S n))
          | None =>
              Some (mkOutcome None n
                      [Acquire true; Invoke n;
                       Notify (AttemptHandler n None); Release;
                       Notify (OnLoopDone None n)])
          end
      end
  end.

(** Modelled from the spec: [Run(ctx, idempotent, operation)] of
    section 4.1, which is not among the sources. *)
Definition Run : option Outcome :=
  option_map (prepend [Notify (OnLoopStart id idempotent)])
    (loop (S maxAttempts) 1).
End Run.

End Orchestrator.

(** ** The example program (its calls of [SessionPool.Retry]) *)

Module Example.

(** Transaction settings built with [table.TxControl]. *)
Inductive TxMode : Type := OnlineReadOnly | SerializableReadWrite.

(** The query texts: a template rendered with the table path prefix. *)
Inductive Query : Type :=
| FillQuery (prefix : string)
| SelectSimpleQuery (prefix : string)
| ScanQuery (prefix : string).

(** The session calls that the operation bodies make. *)
Inductive Operation : Type :=
| StreamReadTable (path : string) (columns : list string)
| DescribeTableOptions
| Execute (tx : TxMode) (q : Query)
| StreamExecuteScanQuery (q : Query)
| PrepareExecute (q : Query) (tx : TxMode)
| CreateTable (path : string) (columns : list string) (primaryKey : list string)
| DescribeTable (path : string).

Section Program.
Context {error : Type}.

(** [path.Join]. *)
Variable path_Join : string -> string -> string.

(** A function of the program as the tree of its effects:
    [sp.Retry(ctx, idempotent, op)] answers with the error it returns,
    [Rows] stands for reading a result to its end ([res.Scan],
    [res.Err]), which may fail too. *)
Inductive Prog : Type :=
| Return (err : option error)
| SpRetry (idempotent : bool) (op : Operation) (k : option error -> Prog)
| Rows (k : option error -> Prog).

Definition readTable (path : string) : Prog :=
  SpRetry false
    (StreamReadTable path ["series_id"; "title"; "release_date"])
    (fun err =>
       match err with
       | Some e => Return (Some e)
       | None => Rows (fun err' => Return err')
       end).

Definition describeTableOptions : Prog :=
  SpRetry false DescribeTableOptions
    (fun err =>
       match err with
       | Some e => Return (Some e)
       | None => Return None
       end).

Definition selectSimple (prefix : string) : Prog :=
  SpRetry false (Execute OnlineReadOnly (SelectSimpleQuery prefix))
    (fun err =>
       match err with
       | Some e => Return (Some e)
       | None => Rows (fun err' => Return err')
       end).

Definition scanQuerySelect (prefix : string) : Prog :=
  SpRetry false (StreamExecuteScanQuery (ScanQuery prefix))
    (fun err =>
       match err with
       | Some e => Return (Some e)
       | None => Rows (fun err' => Return err')
       end).

Definition fillTablesWithData (prefix : string) : Prog :=
  SpRetry false (PrepareExecute (FillQuery prefix) SerializableReadWrite)
    (fun err => Return err).

Definition createTables (prefix : string) : Prog :=
  SpRetry false
    (CreateTable (path_Join prefix "series")
       ["series_id"; "title"; "series_info"; "release_date"; "comment"]
       ["series_id"])
    (fun err =>
       match err with
       | Some e => Return (Some e)
       | None =>
           SpRetry false
             (CreateTable (path_Join prefix "seasons")
                ["series_id"; "season_id"; "title"; "first_aired"; "last_aired"]
                ["series_id"; "season_id"])
             (fun err' =>
                match err' with
                | Some e => Return (Some e)
                | None =>
                    SpRetry false
                      (CreateTable (path_Join prefix "episodes")
                         ["series_id"; "season_id"; "episode_id"; "title"; "air_date"]
                         ["series_id"; "season_id"; "episode_id"])
                      (fun err'' => Return err'')
                end)
       end).

Definition describeTable (path : string) : Prog :=
  SpRetry false (DescribeTable path) (fun err => Return err).

(** Every function of the file that calls [sp.Retry]. *)
Definition callers (prefix path : string) : list Prog :=
  [ readTable path; describeTableOptions; selectSimple prefix;
    scanQuerySelect prefix; fillTablesWithData prefix;
    createTables prefix; describeTable path ].

(** [P] holds of every call of [sp.Retry] the program can reach,
    whatever the earlier calls answered. *)
Inductive AllCalls (P : bool -> Operation -> Prop) : Prog -> Prop :=
| AllReturn err : AllCalls P (Return err)
| AllRetry idempotent op k :
    P idempotent op ->
    (forall r, AllCalls P (k r)) ->
    AllCalls P (SpRetry idempotent op k)
| AllRows k :
    (forall r, AllCalls P (k r)) ->
    AllCalls P (Rows k).

(** The calls made along one run, given the answers. *)
Fixpoint calls (p : Prog) (answers : nat -> option error) (i : nat)
  : list (bool * Operation) :=
  match p with
  | Return _ => []
  | SpRetry idempotent op k =>
      (idempotent, op) :: calls (k (answers i)) answers (S i)
  | Rows k => calls (k (answers i)) answers (S i)
  end.
End Program.

Arguments Prog : clear implicits.

(** Modelled from the spec: [SessionPool.Retry(ctx, idempotent, op)] is
    the orchestrator's [Run] (sections 4.1 and 6); the session pool is
    not among the sources. *)
Definition SessionPool_Retry (acquireFailureIsAttempt : bool)
    (maxAttempts : nat) (id : string) (idempotent : bool)
    (env : Orchestrator.Env) : option Orchestrator.Outcome :=
  Orchestrator.Run acquireFailureIsAttempt maxAttempts id idempotent env.

(** A run in which a conditionally retryable failure, wherever it
    occurs, is the last iteration and is what the caller gets back. *)
Definition surfaced_immediately (env : Orchestrator.Env)
    (o : Orchestrator.Outcome) : Prop :=
  forall n e,
    (1 <= n <= Orchestrator.iterations o)%nat ->
    Orchestrator.failure (env n) = Some e ->
    Classify.conditional e = true ->
    n = Orchestrator.iterations o
    /\ exists t, Orchestrator.result o = Some t
                 /\ Orchestrator.last t = e
                 /\ Orchestrator.attemptCount t = n
                 /\ (Orchestrator.kind t = Orchestrator.NotRetriedNonIdempotent
                     \/ Orchestrator.kind t = Orchestrator.Cancellation).

(** What C10 says of one call: it passes [false], and so the loop it
    starts returns with every conditionally retryable failure surfaced
    at once. *)
Definition never_retries_conditional (idempotent : bool) (op : Operation)
  : Prop :=
  idempotent = false
  /\ forall acquireFailureIsAttempt maxAttempts id env,
       exists o,
         SessionPool_Retry acquireFailureIsAttempt maxAttempts id
           idempotent env = Some o
         /\ surfaced_immediately env o.

End Example.

(** ** A concrete loop *)

Module Demo.
Import Classify.

(** A sample value for the bit [trace.RetryEvents]. *)
Definition sampleRetryEvents : Z := 256.

Definition l0 : list string := ["ydb"].
Definition details_on : Z := 257.
Definition details_off : Z := 1.
Definition info0 : RetryLoopStartInfo := mkStart "loop-1" false.
Definition info1 : RetryLoopStartInfo := mkStart "loop-2" true.
Definition w0 : Log.World (list string) error := Log.mkWorld 0 [].

Definition overloaded : error := Backend Overloaded 400060.
Definition conflict : error := Backend WriteConflict 400040.
Definition broken_pipe : error := Local "broken pipe".

Definition h0 : Log.StartHandler :=
  Log.onRetry (WithName l0 "retry").
Definition ah0 : Log.IntermediateHandler := fst (h0 info0 w0).
Definition ah1 : Log.IntermediateHandler := fst (h0 info1 w0).
Definition w1 : Log.World (list string) error := snd (h0 info0 w0).

(** The loop starts at 0; the first attempt fails at 5; after a backoff
    the second attempt runs from 7 to 10 and succeeds. *)
Definition after_first : Log.World (list string) error :=
  snd (ah0 (mkIntermediate (Some overloaded)) (Log.at_time 5 w1)).
Definition after_second : Log.World (list string) error :=
  snd (ah0 (mkIntermediate None) (Log.at_time 10 after_first)).
End Demo.

(** ** Sample runs of the orchestrator *)

Module DemoRun.
Import Classify Orchestrator.

(** The body fails twice with an overload and then succeeds. *)
Definition flaky : Env :=
  fun n => mkIteration None
             (if (n <? 3)%nat then Some (Backend Overloaded 400060) else None)
             false false.

(** The body meets a conflicting write at once. *)
Definition conflicting : Env :=
  fun _ => mkIteration None (Some (Backend WriteConflict 400040)) false false.
End DemoRun.

(** ** Formats and their operands *)

Module Fmt.

(** The verb letters of a format, in order; a doubled percent sign is a
    literal.  The formats of retry.go use no flags or widths. *)
Fixpoint verbs (s : string) : list ascii :=
  match s with
  | EmptyString => []
  | String c rest =>
      if is_char 37 c then
        match rest with
        | EmptyString => []
        | String v rest' =>
            if is_char 37 v then verbs rest' else v :: verbs rest'
        end
      else verbs rest
  end.

(** Whether package [fmt] formats the operand under the verb without a
    bad-verb marker: [v] takes anything, [s] a string or a value with an
    [Error] or [String] method, [d] an integer. *)
Definition operand_fits {error} (v : ascii) (a : Arg error) : bool :=
  if is_char 118 v then true
  else if is_char 115 v then
    match a with
    | AString _ | AError _ | ADuration _ => true
    | _ => false
    end
  else if is_char 100 v then
    match a with
    | AInt _ | ADuration _ => true
    | _ => false
    end
  else false.

(** As many operands as verbs, each fitting its verb. *)
Fixpoint all_fit {error} (vs : list ascii) (l : list (Arg error)) : bool :=
  match vs, l with
  | [], [] => true
  | v :: vs', a :: l' => operand_fits v a && all_fit vs' l'
  | _, _ => false
  end.

Definition well_formed {Logger error} (line : Entry Logger error) : bool :=
  all_fit (verbs (format line)) (args line).

(** The latency a line shows, if it has one. *)
Definition latency_of {Logger error} (line : Entry Logger error) : option Z :=
  match field "latency" line with
  | Some (ADuration d) => Some d
  | _ => None
  end.

End Fmt.

(** ** One loop, as the observer is called *)

Module Lifecycle.

Section Replay.
Context {Logger error : Type} {CL : Classifier error}.

(** The type of [OnRetry] fixes how a retry loop uses it: the start
    handler once, the attempt handler it returned once per attempt, and
    last the done handler that the latest attempt call returned.  Each
    call happens at its own clock reading. *)
Fixpoint feed (ah : @Log.IntermediateHandler Logger error)
    (dh : @Log.DoneHandler Logger error)
    (calls : list (Z * RetryLoopIntermediateInfo error))
    (w : Log.World Logger error)
  : @Log.DoneHandler Logger error * Log.World Logger error :=
  match calls with
  | [] => (dh, w)
  | c :: rest =>
      let (dh', w') := ah (snd c) (Log.at_time (fst c) w) in
      feed ah dh' rest w'
  end.

Definition replay (h : @Log.StartHandler Logger error) (t0 : Z)
    (sinfo : RetryLoopStartInfo)
    (first : Z * RetryLoopIntermediateInfo error)
    (rest : list (Z * RetryLoopIntermediateInfo error))
    (td : Z) (dinfo : RetryLoopDoneInfo error)
    (w : Log.World Logger error) : Log.World Logger error :=
  let (ah, w1) := h sinfo (Log.at_time t0 w) in
  let (dh, w2) := ah (snd first) (Log.at_time (fst first) w1) in
  let (dh', w3) := feed ah dh rest w2 in
  snd (dh' dinfo (Log.at_time td w3)).

(** The line of one attempt call and of the done call, for a loop with
    the given logger, id, flag and start reading. *)
Definition attempt_line_of (l : Logger) (id : string) (idempotent : bool)
    (start : Z) (c : Z * RetryLoopIntermediateInfo error)
  : Entry Logger error :=
  match IError (snd c) with
  | None => Log.attempt_done_line l id start (Log.mkWorld (fst c) [])
  | Some e =>
      Log.attempt_failed_line l id idempotent start e (Log.mkWorld (fst c) [])
  end.

Definition done_line_of (l : Logger) (id : string) (idempotent : bool)
    (start : Z) (td : Z) (d : RetryLoopDoneInfo error)
  : Entry Logger error :=
  match DError d with
  | None => Log.done_line l id start (Attempts d) (Log.mkWorld td [])
  | Some e =>
      Log.failed_line l id idempotent start (Attempts d) e (Log.mkWorld td [])
  end.

Definition start_line_of (l : Logger) (sinfo : RetryLoopStartInfo)
  : Entry Logger error :=
  mkEntry TRACE l Log.fmt_start
    [AString (ID sinfo); ABool (Idempotent sinfo)].

End Replay.

End Lifecycle.

(** ** Running the example program *)

Module ExampleRun.

Section Run.
Context {error : Type}.

(** What the function returns when the [i]-th step it takes ([sp.Retry]
    or reading the rows) answers [answers i]. *)
Fixpoint result (p : Example.Prog error) (answers : nat -> option error)
    (i : nat) : option error :=
  match p with
  | Example.Return err => err
  | Example.SpRetry _ _ k => result (k (answers i)) answers (S i)
  | Example.Rows k => result (k (answers i)) answers (S i)
  end.

(** The number of steps it takes. *)
Fixpoint steps (p : Example.Prog error) (answers : nat -> option error)
    (i : nat) : nat :=
  match p with
  | Example.Return _ => O
  | Example.SpRetry _ _ k => S (steps (k (answers i)) answers (S i))
  | Example.Rows k => S (steps (k (answers i)) answers (S i))
  end.

(** A run of [n] steps (at least one, at most three) returns the answer
    of its last step, and every earlier step answered nil. *)
Definition stops_at_first_error (p : Example.Prog error) : Prop :=
  forall answers,
    let n := steps p answers 0 in
    (1 <= n <= 3)%nat
    /\ result p answers 0 = answers (n - 1)%nat
    /\ forall j, (j < n - 1)%nat -> answers j = None.

(** The three tables of [createTables], in the order of the source. *)
Definition tables (path_Join : string -> string -> string) (prefix : string)
  : list (bool * Example.Operation) :=
  [ (false,
     Example.CreateTable (path_Join prefix "series")
       ["series_id"; "title"; "series_info"; "release_date"; "comment"]
       ["series_id"]);
    (false,
     Example.CreateTable (path_Join prefix "seasons")
       ["series_id"; "season_id"; "title"; "first_aired"; "last_aired"]
       ["series_id"; "season_id"]);
    (false,
     Example.CreateTable (path_Join prefix "episodes")
       ["series_id"; "season_id"; "episode_id"; "title"; "air_date"]
       ["series_id"; "season_id"; "episode_id"]) ].

End Run.

End ExampleRun.

(** ** What [describeTableOptions] prints *)

Module Presets.

Section Print.
Context {error Preset : Type}.

(** The seven slices of [table.TableOptionsDescription] that the
    function ranges over; [Preset] stands for their element types. *)
Record TableOptionsDescription : Type := mkDescription {
  TableProfilePresets : list Preset;
  StoragePolicyPresets : list Preset;
  CompactionPolicyPresets : list Preset;
  PartitioningPolicyPresets : list Preset;
  ExecutionPolicyPresets : list Preset;
  ReplicationPolicyPresets : list Preset;
  CachingPolicyPresets : list Preset
}.

Inductive PArg : Type :=
| PInt (n : Z)
| PValue (p : Preset).

(** A call of [log.Println] or [log.Printf]. *)
Inductive Print : Type :=
| Println (s : string)
| Printf (fmt : string) (a : list PArg).

Definition header : string :=
  String (ascii_of_nat 10) "> describe_table_options:".

(** [for i, p := range l { log.Printf(fmt, i+1, len(l), p) }], from
    index [i] on. *)
Fixpoint rangeFrom (fmt : string) (total : Z) (i : Z) (l : list Preset)
  : list Print :=
  match l with
  | [] => []
  | p :: l' =>
      Printf fmt [PInt (i + 1); PInt total; PValue p]
        :: rangeFrom fmt total (i + 1) l'
  end.

Definition printPresets (name : string) (l : list Preset) : list Print :=
  rangeFrom (name ++ ": %d/%d: %+v")%string (Z.of_nat (length l)) 0 l.

(** The categories in the order the function prints them. *)
Definition categories (desc : TableOptionsDescription)
  : list (string * list Preset) :=
  [ ("TableProfilePresets", TableProfilePresets desc);
    ("StoragePolicyPresets", StoragePolicyPresets desc);
    ("CompactionPolicyPresets", CompactionPolicyPresets desc);
    ("PartitioningPolicyPresets", PartitioningPolicyPresets desc);
    ("ExecutionPolicyPresets", ExecutionPolicyPresets desc);
    ("ReplicationPolicyPresets", ReplicationPolicyPresets desc);
    ("CachingPolicyPresets", CachingPolicyPresets desc) ].

(** Lines 141-168 of the example: what the function prints and returns
    once [sp.Retry] has answered [err], [desc] being what the operation
    body stored. *)
Definition describeTableOptions_after (err : option error)
    (desc : TableOptionsDescription) : list Print * option error :=
  match err with
  | Some e => ([], Some e)
  | None =>
      (Println header
         :: printPresets "TableProfilePresets" (TableProfilePresets desc)
         ++ printPresets "StoragePolicyPresets" (StoragePolicyPresets desc)
         ++ printPresets "CompactionPolicyPresets" (CompactionPolicyPresets desc)
         ++ printPresets "PartitioningPolicyPresets" (PartitioningPolicyPresets desc)
         ++ printPresets "ExecutionPolicyPresets" (ExecutionPolicyPresets desc)
         ++ printPresets "ReplicationPolicyPresets" (ReplicationPolicyPresets desc)
         ++ printPresets "CachingPolicyPresets" (CachingPolicyPresets desc),
       None)
  end.

(** The counter and the total a printed line shows. *)
Definition shown (p : Print) : option (Z * Z) :=
  match p with
  | Printf _ (PInt k :: PInt n :: _) => Some (k, n)
  | _ => None
  end.

End Print.

Arguments TableOptionsDescription : clear implicits.
Arguments PArg : clear implicits.
Arguments Print : clear implicits.

End Presets.

(** * Properties *)

(** ** The models on concrete inputs *)

Example labels_attempt_failed :
  labels Log.fmt_attempt_failed
  = ["id"; "latency"; "error"; "retryable"; "code"; "deleteSession"].
Proof. reflexivity. Qed.

Example labels_failed :
  labels Log.fmt_failed
  = ["id"; "latency"; "attempts"; "error"; "retryable"; "code"; "deleteSession"].
Proof. reflexivity. Qed.

Example demo_levels :
  map level (Log.sink Demo.after_second) = [TRACE; ERROR; TRACE].
Proof. reflexivity. Qed.

(** The three scenarios of section 8 of the spec. *)
Example scenario_third_attempt_succeeds :
  option_map (fun o => (Orchestrator.result o, Orchestrator.iterations o))
    (Orchestrator.Run true 3 "loop-1" true DemoRun.flaky)
  = Some (None, 3%nat).
Proof. reflexivity. Qed.

Example scenario_permanent :
  option_map (fun o => (option_map Orchestrator.kind (Orchestrator.result o),
                        Orchestrator.iterations o))
    (Orchestrator.Run true 3 "loop-1" true
       (fun _ => Orchestrator.mkIteration None
                   (Some (Classify.Backend Classify.BadRequest 400010))
                   false false))
  = Some (Some Orchestrator.Permanent, 1%nat).
Proof. reflexivity. Qed.

Example scenario_exhaustion :
  option_map (fun o => (option_map Orchestrator.kind (Orchestrator.result o),
                        Orchestrator.invocations (Orchestrator.actions o)))
    (Orchestrator.Run true 2 "loop-1" true
       (fun _ => Orchestrator.mkIteration None
                   (Some (Classify.Backend Classify.Unavailable 400050))
                   false false))
  = Some (Some Orchestrator.Exhaustion, 2%nat).
Proof. reflexivity. Qed.

Example scenario_conflict_not_retried :
  option_map (fun o => (option_map Orchestrator.kind (Orchestrator.result o),
                        Orchestrator.invocations (Orchestrator.actions o)))
    (Example.SessionPool_Retry true 5 "loop-1" false DemoRun.conflicting)
  = Some (Some Orchestrator.NotRetriedNonIdempotent, 1%nat).
Proof. reflexivity. Qed.

(** ** The structured logger *)

Section LogFacts.
Context {Logger error : Type} {LA : LoggerAPI Logger} {CL : Classifier error}.
Variable RetryEvents : Z.

Implicit Types (l : Logger) (w : Log.World Logger error) (e : error).
Implicit Types (info : RetryLoopStartInfo).

Lemma added_app w c (es : list (Entry Logger error)) :
  Log.added w (Log.mkWorld c (Log.sink w ++ es)) = es.
Proof.
  unfold Log.added; simpl.
  induction (Log.sink w) as [|x xs IH]; simpl; auto.
Qed.

Lemma onIntermediate_failed l id idempotent start e w :
  Log.onIntermediate l id idempotent start (mkIntermediate (Some e)) w
  = (Log.onDone l id idempotent start,
     Log.mkWorld (Log.clock w)
       (Log.sink w ++ [Log.attempt_failed_line l id idempotent start e w])).
Proof.
  unfold Log.onIntermediate, Log.attempt_failed_line, Log.bind; simpl.
  destruct (IsYdb e); reflexivity.
Qed.

Lemma onIntermediate_done l id idempotent start w :
  Log.onIntermediate l id idempotent start (mkIntermediate None) w
  = (Log.onDone l id idempotent start,
     Log.mkWorld (Log.clock w)
       (Log.sink w ++ [Log.attempt_done_line l id start w])).
Proof. reflexivity. Qed.

Lemma onDone_failed l id idempotent start n e w :
  Log.onDone l id idempotent start (mkDone n (Some e)) w
  = (tt, Log.mkWorld (Log.clock w)
           (Log.sink w ++ [Log.failed_line l id idempotent start n e w])).
Proof.
  unfold Log.onDone, Log.failed_line, Log.bind; simpl.
  destruct (IsYdb e); reflexivity.
Qed.

Lemma onDone_done l id idempotent start n w :
  Log.onDone l id idempotent start (mkDone n None) w
  = (tt, Log.mkWorld (Log.clock w)
           (Log.sink w ++ [Log.done_line l id start n w])).
Proof. reflexivity. Qed.

Lemma intermediate_returns_onDone l id idempotent start ainfo w :
  fst (Log.onIntermediate l id idempotent start ainfo w)
  = Log.onDone l id idempotent start.
Proof.
  destruct ainfo as [[e|]].
  - rewrite onIntermediate_failed; reflexivity.
  - rewrite onIntermediate_done; reflexivity.
Qed.

(** What [started] pins down: the bit is set, the handler is the
    closure over the renamed logger, the loop's id and flag, and the
    clock reading of the loop-start call. *)
Lemma started_inv l details info w0 ah w1 :
  Log.started RetryEvents l details info w0 ah w1 ->
  Z.land details RetryEvents <> 0
  /\ ah = Log.onIntermediate (WithName l "retry") (ID info)
            (Idempotent info) (Log.clock w0)
  /\ w1 = Log.mkWorld (Log.clock w0)
            (Log.sink w0
               ++ [mkEntry TRACE (WithName l "retry") Log.fmt_start
                     [AString (ID info); ABool (Idempotent info)]]).
Proof.
  unfold Log.started, Log.Retry.
  intros [h [Hh Hrun]].
  destruct (Z.eqb_spec (Z.land details RetryEvents) 0) as [Hz|Hnz];
    simpl in Hh; [discriminate|].
  injection Hh as <-.
  unfold Log.onRetry, Log.bind in Hrun; simpl in Hrun.
  injection Hrun as <- <-.
  repeat split; auto.
Qed.

Lemma started_intro l details info w0 :
  Z.land details RetryEvents <> 0 ->
  Log.started RetryEvents l details info w0
    (fst (Log.onRetry (WithName l "retry") info w0))
    (snd (Log.onRetry (WithName l "retry") info w0)).
Proof.
  intros Hnz. exists (Log.onRetry (WithName l "retry")). split.
  - unfold Log.Retry.
    destruct (Z.eqb_spec (Z.land details RetryEvents) 0); [contradiction|reflexivity].
  - reflexivity.
Defined.

Ltac use_start H :=
  let Hb := fresh "Hbit" in
  apply started_inv in H; destruct H as (Hb & -> & ->).

(** C1. An attempt-outcome event with a non-nil error produces one line:
    at error level when [errors.IsYdb] holds of the error, at debug level
    otherwise; its code, retryable and deleteSession fields are the
    status code, the retry verdict and the delete-session verdict of
    [retry.Check]. *)
Theorem attempt_failure_line l details info w0 ah w1 e w :
  Log.started RetryEvents l details info w0 ah w1 ->
  exists line,
    Log.added w (snd (ah (mkIntermediate (Some e)) w)) = [line]
    /\ level line = (if IsYdb e then ERROR else DEBUG)
    /\ field "code" line = Some (AInt (StatusCode (Check e)))
    /\ field "retryable" line
       = Some (ABool (MustRetry (Check e) (Idempotent info)))
    /\ field "deleteSession" line
       = Some (ABool (MustDeleteSession (Check e))).
Proof.
  intros H. use_start H.
  rewrite onIntermediate_failed; simpl.
  eexists; split; [apply added_app|].
  repeat split; reflexivity.
Qed.

(** C2 (amended). The latency field of every attempt line, failed or
    not, is the time elapsed since the loop-start handler read the
    clock: it accumulates over the earlier attempts and backoffs. *)
Theorem attempt_latency_since_loop_start l details info w0 ah w1 res w :
  Log.started RetryEvents l details info w0 ah w1 ->
  exists line,
    Log.added w (snd (ah (mkIntermediate res) w)) = [line]
    /\ field "latency" line
       = Some (ADuration (Log.clock w - Log.clock w0)).
Proof.
  intros H. use_start H.
  destruct res as [e|].
  - rewrite onIntermediate_failed; simpl.
    eexists; split; [apply added_app|reflexivity].
  - rewrite onIntermediate_done; simpl.
    eexists; split; [apply added_app|reflexivity].
Qed.

(** C3. The retryable field of both failure lines (attempt and loop
    done) is [MustRetry] of the error's classification at the
    idempotency flag of the loop-start event of the same loop; so two
    loops that differ in the flag log different values for an error
    whose verdict depends on it. *)
Theorem retryable_uses_loop_flag l details info w0 ah w1 e :
  Log.started RetryEvents l details info w0 ah w1 ->
  (forall w, exists line,
      Log.added w (snd (ah (mkIntermediate (Some e)) w)) = [line]
      /\ field "retryable" line
         = Some (ABool (MustRetry (Check e) (Idempotent info))))
  /\ (forall ainfo w' n w, exists line,
      Log.added w (snd (fst (ah ainfo w') (mkDone n (Some e)) w)) = [line]
      /\ field "retryable" line
         = Some (ABool (MustRetry (Check e) (Idempotent info))))
  /\ (forall info' w0' ah' w1' w line line',
      Log.started RetryEvents l details info' w0' ah' w1' ->
      Idempotent info = true -> Idempotent info' = false ->
      MustRetry (Check e) true <> MustRetry (Check e) false ->
      Log.added w (snd (ah (mkIntermediate (Some e)) w)) = [line] ->
      Log.added w (snd (ah' (mkIntermediate (Some e)) w)) = [line'] ->
      field "retryable" line <> field "retryable" line').
Proof.
  intros H. use_start H. split; [|split].
  - intros w. rewrite onIntermediate_failed; simpl.
    eexists; split; [apply added_app|reflexivity].
  - intros ainfo w' n w.
    rewrite intermediate_returns_onDone, onDone_failed; simpl.
    eexists; split; [apply added_app|reflexivity].
  - intros info' w0' ah' w1' w line line' H' Ht Hf Hne.
    use_start H'.
    rewrite !onIntermediate_failed; simpl. rewrite !added_app.
    intros [= <-] [= <-].
    rewrite Ht, Hf. intros Heq. apply Hne.
    injection Heq; trivial.
Qed.

(** C4. Every loop-done event produces exactly one line, with the loop
    id, the number of attempts and the latency of the loop, whether the
    final error is nil or not. *)
Theorem done_summary_line l details info w0 ah w1 ainfo w' dinfo w :
  Log.started RetryEvents l details info w0 ah w1 ->
  exists line,
    Log.added w (snd (fst (ah ainfo w') dinfo w)) = [line]
    /\ field "id" line = Some (AString (ID info))
    /\ field "attempts" line = Some (AInt (Attempts dinfo))
    /\ field "latency" line
       = Some (ADuration (Log.clock w - Log.clock w0)).
Proof.
  intros H. use_start H.
  rewrite intermediate_returns_onDone.
  destruct dinfo as [n [e|]].
  - rewrite onDone_failed; simpl.
    eexists; split; [apply added_app|repeat split; reflexivity].
  - rewrite onDone_done; simpl.
    eexists; split; [apply added_app|repeat split; reflexivity].
Qed.

(** C5. When the observer is installed, the loop-start handler returns
    the attempt handler, and every call of that attempt handler returns
    the same loop-done handler: the closure over the loop id, the
    idempotency flag and the clock reading of that loop-start call. *)
Theorem observer_chain_shape l details :
  Z.land details RetryEvents <> 0 ->
  exists h,
    Log.OnRetry (Log.Retry RetryEvents l details) = Some h
    /\ forall info w0, exists ah w1,
         h info w0 = (ah, w1)
         /\ forall ainfo w, exists w',
              ah ainfo w
              = (Log.onDone (WithName l "retry") (ID info)
                   (Idempotent info) (Log.clock w0), w').
Proof.
  intros Hbit.
  pose proof (started_intro l details) as Hs.
  exists (Log.onRetry (WithName l "retry")). split.
  - unfold Log.Retry.
    destruct (Z.eqb_spec (Z.land details RetryEvents) 0);
      [contradiction|reflexivity].
  - intros info w0.
    specialize (Hs info w0 Hbit).
    destruct (Log.onRetry (WithName l "retry") info w0) as [ah w1] eqn:E.
    exists ah, w1. split; [reflexivity|].
    simpl in Hs. use_start Hs.
    intros ainfo w.
    eexists. rewrite <- intermediate_returns_onDone with (ainfo := ainfo) (w := w).
    apply surjective_pairing.
Qed.

(** C6. Without the retry-events bit in [details] the returned
    [trace.Retry] has no [OnRetry]; with it [OnRetry] is set and every
    line of the three handlers goes through the logger renamed with the
    component name retry. *)
Theorem rendering_gated_by_details l details :
  (Z.land details RetryEvents = 0 ->
   Log.OnRetry (Log.Retry RetryEvents l details) = None)
  /\ (Z.land details RetryEvents <> 0 ->
      exists h,
        Log.OnRetry (Log.Retry RetryEvents l details) = Some h
        /\ forall info w0 ainfo w dinfo w',
             let ah := fst (h info w0) in
             let dh := fst (ah ainfo w) in
             Forall (fun line => via line = WithName l "retry")
               (Log.added w0 (snd (h info w0))
                  ++ Log.added w (snd (ah ainfo w))
                  ++ Log.added w' (snd (dh dinfo w')))).
Proof.
  split; intros Hbit.
  - unfold Log.Retry. rewrite Hbit. reflexivity.
  - exists (Log.onRetry (WithName l "retry")). split.
    + unfold Log.Retry.
      destruct (Z.eqb_spec (Z.land details RetryEvents) 0);
        [contradiction|reflexivity].
    + intros info w0 ainfo w dinfo w'. cbv zeta.
      pose proof (started_intro l details info w0 Hbit) as Hs.
      use_start Hs.
      rewrite intermediate_returns_onDone.
      rewrite added_app.
      constructor; [reflexivity|].
      apply Forall_app; split.
      * destruct ainfo as [[e|]].
        -- rewrite onIntermediate_failed; simpl; rewrite added_app.
           constructor; [reflexivity|constructor].
        -- rewrite onIntermediate_done; simpl; rewrite added_app.
           constructor; [reflexivity|constructor].
      * destruct dinfo as [n [e|]].
        -- rewrite onDone_failed; simpl; rewrite added_app.
           constructor; [reflexivity|constructor].
        -- rewrite onDone_done; simpl; rewrite added_app.
           constructor; [reflexivity|constructor].
Qed.

(** C9. A loop-done event with a non-nil final error is logged at error
    level when [errors.IsYdb] holds of the error and at debug level
    otherwise, and the line carries the status code, the retry verdict
    and the delete-session verdict of the final error. *)
Theorem done_failure_line l details info w0 ah w1 ainfo w' n e w :
  Log.started RetryEvents l details info w0 ah w1 ->
  exists line,
    Log.added w (snd (fst (ah ainfo w') (mkDone n (Some e)) w)) = [line]
    /\ level line = (if IsYdb e then ERROR else DEBUG)
    /\ field "code" line = Some (AInt (StatusCode (Check e)))
    /\ field "retryable" line
       = Some (ABool (MustRetry (Check e) (Idempotent info)))
    /\ field "deleteSession" line
       = Some (ABool (MustDeleteSession (Check e))).
Proof.
  intros H. use_start H.
  rewrite intermediate_returns_onDone, onDone_failed; simpl.
  eexists; split; [apply added_app|].
  repeat split; reflexivity.
Qed.

(** The loop-start event produces one line at trace level with the loop
    id and the idempotency flag (lines 22-24). *)
Theorem loop_start_line l details info w0 ah w1 :
  Log.started RetryEvents l details info w0 ah w1 ->
  exists line,
    Log.added w0 w1 = [line]
    /\ level line = TRACE
    /\ fields line
       = [("id", AString (ID info)); ("idempotent", ABool (Idempotent info))].
Proof.
  intros H. use_start H.
  eexists; split; [apply added_app|].
  repeat split; reflexivity.
Qed.

(** A loop-done event with a nil error is logged at trace level, with
    the id, the latency and the attempts and nothing else (lines 48-53). *)
Theorem done_success_line l details info w0 ah w1 ainfo w' n w :
  Log.started RetryEvents l details info w0 ah w1 ->
  exists line,
    Log.added w (snd (fst (ah ainfo w') (mkDone n None) w)) = [line]
    /\ level line = TRACE
    /\ fields line
       = [("id", AString (ID info));
          ("latency", ADuration (Log.clock w - Log.clock w0));
          ("attempts", AInt n)].
Proof.
  intros H. use_start H.
  rewrite intermediate_returns_onDone, onDone_done; simpl.
  eexists; split; [apply added_app|].
  repeat split; reflexivity.
Qed.

End LogFacts.

(** C8. An attempt-outcome event with a nil error produces one line at
    trace level whose only fields are the loop id and a latency; no code,
    retryable or deleteSession field appears, and what is logged does not
    depend on the classifier: [retry.Check] plays no part. *)
Theorem attempt_success_line {Logger error : Type} {LA : LoggerAPI Logger}
    (CL CL' : Classifier error) (RetryEvents : Z) (l : Logger) (details : Z)
    (info : RetryLoopStartInfo) (w0 : Log.World Logger error)
    ah w1 ah' w1' (w : Log.World Logger error) :
  @Log.started Logger error LA CL RetryEvents l details info w0 ah w1 ->
  @Log.started Logger error LA CL' RetryEvents l details info w0 ah' w1' ->
  exists line,
    Log.added w (snd (ah (mkIntermediate None) w)) = [line]
    /\ level line = TRACE
    /\ fields line
       = [("id", AString (ID info));
          ("latency", ADuration (Log.clock w - Log.clock w0))]
    /\ field "code" line = None
    /\ field "retryable" line = None
    /\ field "deleteSession" line = None
    /\ snd (ah' (mkIntermediate None) w) = snd (ah (mkIntermediate None) w).
Proof.
  intros H H'.
  apply started_inv in H. destruct H as (_ & -> & _).
  apply started_inv in H'. destruct H' as (_ & -> & _).
  rewrite !onIntermediate_done; simpl.
  eexists; split; [apply added_app|].
  repeat split; reflexivity.
Qed.

#[local] Existing Instance Classify.classifier.
#[local] Existing Instance Classify.named_logger.

Lemma demo_bit_on : Z.land Demo.details_on Demo.sampleRetryEvents <> 0.
Proof. discriminate. Defined.

Lemma demo_started0 :
  Log.started Demo.sampleRetryEvents Demo.l0 Demo.details_on Demo.info0
    Demo.w0 Demo.ah0 Demo.w1.
Proof.
  apply (started_intro Demo.sampleRetryEvents Demo.l0 Demo.details_on
           Demo.info0 Demo.w0 demo_bit_on).
Defined.

Lemma demo_started1 :
  Log.started Demo.sampleRetryEvents Demo.l0 Demo.details_on Demo.info1
    Demo.w0 Demo.ah1 (snd (Demo.h0 Demo.info1 Demo.w0)).
Proof.
  apply (started_intro Demo.sampleRetryEvents Demo.l0 Demo.details_on
           Demo.info1 Demo.w0 demo_bit_on).
Defined.

Lemma attempt_failure_line_witness :
  exists line,
    Log.added Demo.w1
      (snd (Demo.ah0 (mkIntermediate (Some Demo.overloaded)) Demo.w1)) = [line]
    /\ level line = ERROR
    /\ field "code" line = Some (AInt 400060)
    /\ field "retryable" line = Some (ABool true)
    /\ field "deleteSession" line = Some (ABool false).
Proof.
  exact (attempt_failure_line Demo.sampleRetryEvents Demo.l0 Demo.details_on
           Demo.info0 Demo.w0 Demo.ah0 Demo.w1 Demo.overloaded Demo.w1
           demo_started0).
Defined.

(** C2, as stated, fails: in the loop of [Demo] the second attempt lasts
    3 and its line says 10, the time since the loop started. *)
Lemma latency_is_per_attempt_counterexample :
  map (field "latency") (Log.sink Demo.after_second)
  = [None; Some (ADuration 5); Some (ADuration 10)]
  /\ ~ Log.latency_is_per_attempt (LA := Classify.named_logger)
         (CL := Classify.classifier) Demo.sampleRetryEvents.
Proof.
  split; [reflexivity|].
  intros H.
  specialize (H Demo.l0 Demo.details_on Demo.info0 Demo.w0 Demo.ah0 Demo.w1
                demo_started0 7 10 None Demo.after_first
                (Log.attempt_done_line ["ydb"; "retry"] "loop-1" 0
                   (Log.at_time 10 Demo.after_first))).
  assert (Hc : Some (ADuration (error := Classify.error) 10)
               = Some (ADuration (10 - 7))).
  { apply H; [cbn; lia|reflexivity]. }
  discriminate Hc.
Qed.

Lemma attempt_latency_since_loop_start_witness :
  exists line,
    Log.added (Log.at_time 10 Demo.after_first) Demo.after_second = [line]
    /\ field "latency" line = Some (ADuration 10).
Proof.
  exact (attempt_latency_since_loop_start Demo.sampleRetryEvents Demo.l0
           Demo.details_on Demo.info0 Demo.w0 Demo.ah0 Demo.w1 None
           (Log.at_time 10 Demo.after_first) demo_started0).
Defined.

(** A conflicting write is logged as retryable by the idempotent loop and
    as not retryable by the other one. *)
Lemma retryable_uses_loop_flag_witness :
  (exists line,
      Log.added Demo.w1
        (snd (Demo.ah1 (mkIntermediate (Some Demo.conflict)) Demo.w1)) = [line]
      /\ field "retryable" line = Some (ABool true))
  /\ (exists line,
      Log.added Demo.w1
        (snd (Demo.ah0 (mkIntermediate (Some Demo.conflict)) Demo.w1)) = [line]
      /\ field "retryable" line = Some (ABool false))
  /\ field "retryable"
       (Log.attempt_failed_line ["ydb"; "retry"] "loop-2" true 0
          Demo.conflict Demo.w1)
     <> field "retryable"
          (Log.attempt_failed_line ["ydb"; "retry"] "loop-1" false 0
             Demo.conflict Demo.w1).
Proof.
  split; [|split].
  - exact (proj1 (retryable_uses_loop_flag Demo.sampleRetryEvents Demo.l0
                    Demo.details_on Demo.info1 Demo.w0 Demo.ah1 _
                    Demo.conflict demo_started1) Demo.w1).
  - exact (proj1 (retryable_uses_loop_flag Demo.sampleRetryEvents Demo.l0
                    Demo.details_on Demo.info0 Demo.w0 Demo.ah0 _
                    Demo.conflict demo_started0) Demo.w1).
  - apply (proj2 (proj2 (retryable_uses_loop_flag Demo.sampleRetryEvents
                           Demo.l0 Demo.details_on Demo.info1 Demo.w0
                           Demo.ah1 _ Demo.conflict demo_started1))
             Demo.info0 Demo.w0 Demo.ah0 Demo.w1 Demo.w1 _ _ demo_started0);
      [reflexivity|reflexivity|cbv; discriminate|reflexivity|reflexivity].
Defined.

Lemma done_summary_line_witness :
  exists line,
    Log.added (Log.at_time 12 Demo.after_second)
      (snd (fst (Demo.ah0 (mkIntermediate None) Demo.w1) (mkDone 2 None)
              (Log.at_time 12 Demo.after_second))) = [line]
    /\ field "id" line = Some (AString "loop-1")
    /\ field "attempts" line = Some (AInt 2)
    /\ field "latency" line = Some (ADuration 12).
Proof.
  exact (done_summary_line Demo.sampleRetryEvents Demo.l0 Demo.details_on
           Demo.info0 Demo.w0 Demo.ah0 Demo.w1 (mkIntermediate None) Demo.w1
           (mkDone 2 None) (Log.at_time 12 Demo.after_second) demo_started0).
Defined.

Lemma observer_chain_shape_witness :
  exists h,
    Log.OnRetry (Log.Retry Demo.sampleRetryEvents Demo.l0 Demo.details_on)
    = Some h
    /\ forall info w0, exists ah w1,
         h info w0 = (ah, w1)
         /\ forall ainfo w, exists w',
              ah ainfo w
              = (Log.onDone ["ydb"; "retry"] (ID info) (Idempotent info)
                   (Log.clock w0), w').
Proof.
  exact (observer_chain_shape Demo.sampleRetryEvents Demo.l0 Demo.details_on
           demo_bit_on).
Defined.

Lemma rendering_gated_by_details_witness :
  Log.OnRetry (Log.Retry Demo.sampleRetryEvents Demo.l0 Demo.details_off) = None
  /\ exists h,
       Log.OnRetry (Log.Retry Demo.sampleRetryEvents Demo.l0 Demo.details_on)
       = Some h.
Proof.
  split.
  - exact (proj1 (rendering_gated_by_details Demo.sampleRetryEvents Demo.l0
                    Demo.details_off) eq_refl).
  - destruct (proj2 (rendering_gated_by_details Demo.sampleRetryEvents Demo.l0
                       Demo.details_on) demo_bit_on) as [h [Hh _]].
    exists h. exact Hh.
Defined.

Lemma attempt_success_line_witness :
  exists line,
    Log.added (Log.at_time 10 Demo.after_first) Demo.after_second = [line]
    /\ level line = TRACE
    /\ fields line
       = [("id", AString "loop-1"); ("latency", ADuration 10)].
Proof.
  destruct (attempt_success_line Classify.classifier Classify.classifier
              Demo.sampleRetryEvents Demo.l0 Demo.details_on Demo.info0
              Demo.w0 Demo.ah0 Demo.w1 Demo.ah0 Demo.w1
              (Log.at_time 10 Demo.after_first) demo_started0 demo_started0)
    as [line (H1 & H2 & H3 & _)].
  exists line. repeat split; assumption.
Defined.

Lemma done_failure_line_witness :
  exists line,
    Log.added Demo.after_first
      (snd (fst (Demo.ah0 (mkIntermediate None) Demo.w1)
              (mkDone 1 (Some Demo.broken_pipe)) Demo.after_first)) = [line]
    /\ level line = DEBUG
    /\ field "code" line = Some (AInt 0)
    /\ field "retryable" line = Some (ABool false)
    /\ field "deleteSession" line = Some (ABool false).
Proof.
  exact (done_failure_line Demo.sampleRetryEvents Demo.l0 Demo.details_on
           Demo.info0 Demo.w0 Demo.ah0 Demo.w1 (mkIntermediate None) Demo.w1
           1 Demo.broken_pipe Demo.after_first demo_started0).
Defined.

Lemma loop_start_line_witness :
  exists line,
    Log.added Demo.w0 Demo.w1 = [line]
    /\ level line = TRACE
    /\ fields line = [("id", AString "loop-1"); ("idempotent", ABool false)].
Proof.
  exact (loop_start_line Demo.sampleRetryEvents Demo.l0 Demo.details_on
           Demo.info0 Demo.w0 Demo.ah0 Demo.w1 demo_started0).
Defined.

Lemma done_success_line_witness :
  exists line,
    Log.added (Log.at_time 12 Demo.after_second)
      (snd (fst (Demo.ah0 (mkIntermediate None) Demo.w1) (mkDone 2 None)
              (Log.at_time 12 Demo.after_second))) = [line]
    /\ level line = TRACE
    /\ fields line
       = [("id", AString "loop-1"); ("latency", ADuration 12);
          ("attempts", AInt 2)].
Proof.
  exact (done_success_line Demo.sampleRetryEvents Demo.l0 Demo.details_on
           Demo.info0 Demo.w0 Demo.ah0 Demo.w1 (mkIntermediate None) Demo.w1
           2 (Log.at_time 12 Demo.after_second) demo_started0).
Defined.

(** ** The orchestrator *)

Section RunFacts.
Import Classify Orchestrator.

Variable acquireFailureIsAttempt : bool.
Variable maxAttempts : nat.
Variable id : string.
Variable idempotent : bool.
Variable env : Env.

(** The two ways out of the error branch: the loop goes on after a
    backoff, or it ends here with a terminal error. *)
Lemma afterError_cases n it invoked e next :
  let pre := failedAttempt acquireFailureIsAttempt n invoked e in
  (ShouldContinue maxAttempts idempotent (Classify e) n (cancelled it) = true
   /\ afterError acquireFailureIsAttempt maxAttempts idempotent n it invoked e next
      = option_map (prepend (pre ++ [Sleep])) next)
  \/ (exists k err tail,
        afterError acquireFailureIsAttempt maxAttempts idempotent n it invoked e next
        = Some (mkOutcome (Some (mkTerminal k e n)) n (pre ++ tail))
        /\ events tail = [OnLoopDone err n]
        /\ invocations tail = O
        /\ (ShouldContinue maxAttempts idempotent (Classify e) n (cancelled it) = false
            -> k = stopKind idempotent (Classify e) (cancelled it))).
Proof.
  intros pre. unfold afterError. fold pre.
  destruct (ShouldContinue maxAttempts idempotent (Classify e) n (cancelled it)) eqn:E.
  - destruct (cancelledInBackoff it).
    + right. exists Cancellation, (Some Cancelled), [Sleep; Notify (OnLoopDone (Some Cancelled) n)].
      repeat split; try reflexivity. discriminate.
    + left. split; reflexivity.
  - right. exists (stopKind idempotent (Classify e) (cancelled it)), (Some e),
             [Notify (OnLoopDone (Some e) n)].
    repeat split; reflexivity.
Qed.

Lemma ShouldContinue_budget c n b :
  ShouldContinue maxAttempts idempotent c n b = true -> (n < maxAttempts)%nat.
Proof.
  unfold ShouldContinue. intros H.
  apply andb_prop in H. destruct H as [_ H]. apply Nat.ltb_lt in H. exact H.
Qed.

Lemma ShouldContinue_retryable c n b :
  ShouldContinue maxAttempts idempotent c n b = true ->
  isRetryable c idempotent = true.
Proof.
  unfold ShouldContinue. intros H.
  apply andb_prop in H. destruct H as [H _].
  apply andb_prop in H. destruct H as [_ H]. exact H.
Qed.

(** The loop returns: the attempt budget bounds the fuel it needs. *)
Lemma loop_total fuel : forall n,
  (maxAttempts - n < fuel)%nat ->
  exists o, loop acquireFailureIsAttempt maxAttempts idempotent env fuel n = Some o.
Proof.
  induction fuel as [|fuel IH]; intros n Hfuel; [lia|].
  assert (Herr : forall invoked e,
    exists o, afterError acquireFailureIsAttempt maxAttempts idempotent n
                (env n) invoked e
                (loop acquireFailureIsAttempt maxAttempts idempotent env fuel (S n))
              = Some o).
  { intros invoked e.
    destruct (afterError_cases n (env n) invoked e
                (loop acquireFailureIsAttempt maxAttempts idempotent env fuel (S n)))
      as [[Hc Heq]|(k & err & tail & Heq & _)].
    - apply ShouldContinue_budget in Hc.
      destruct (IH (S n)) as [o Ho]; [lia|].
      rewrite Heq, Ho. simpl. eauto.
    - rewrite Heq. eauto. }
  simpl.
  destruct (acquire (env n)) as [e|]; [apply Herr|].
  destruct (body (env n)) as [e|]; [apply Herr|eauto].
Qed.

Lemma Run_total :
  exists o, Run acquireFailureIsAttempt maxAttempts id idempotent env = Some o.
Proof.
  unfold Run.
  destruct (loop_total (S maxAttempts) 1) as [o Ho]; [lia|].
  rewrite Ho. simpl. eauto.
Qed.

End RunFacts.

(** ** The example program *)

Section NonIdempotent.
Import Classify Orchestrator Example.

Variable acquireFailureIsAttempt : bool.
Variable maxAttempts : nat.
Variable env : Env.

Lemma conditional_verdicts e :
  conditional e = true ->
  isRetryable (Classify e) false = false
  /\ isRetryable (Classify e) true = true.
Proof.
  unfold conditional, isRetryable.
  destruct (verdict (Classify e)); intros H; try discriminate; auto.
Qed.

Lemma conditional_stopKind e b :
  conditional e = true ->
  stopKind false (Classify e) b = NotRetriedNonIdempotent
  \/ stopKind false (Classify e) b = Cancellation.
Proof.
  intros H. destruct (conditional_verdicts e H) as [Hf Ht].
  unfold stopKind. rewrite Hf, Ht. destruct b; auto.
Qed.

(** From iteration [n] on, a non-idempotent loop ends at the first
    conditionally retryable failure. *)
Lemma loop_surfaces fuel : forall n o,
  loop acquireFailureIsAttempt maxAttempts false env fuel n = Some o ->
  (n <= iterations o)%nat
  /\ forall m e,
       (n <= m <= iterations o)%nat ->
       failure (env m) = Some e ->
       conditional e = true ->
       m = iterations o
       /\ exists t, result o = Some t /\ last t = e /\ attemptCount t = m
                    /\ (kind t = NotRetriedNonIdempotent \/ kind t = Cancellation).
Proof.
  induction fuel as [|fuel IH]; intros n o Hrun; [discriminate|].
  simpl in Hrun.
  assert (Herr : forall invoked e,
    failure (env n) = Some e ->
    afterError acquireFailureIsAttempt maxAttempts false n (env n) invoked e
      (loop acquireFailureIsAttempt maxAttempts false env fuel (S n)) = Some o ->
    (n <= iterations o)%nat
    /\ forall m e',
         (n <= m <= iterations o)%nat ->
         failure (env m) = Some e' ->
         conditional e' = true ->
         m = iterations o
         /\ exists t, result o = Some t /\ last t = e' /\ attemptCount t = m
                      /\ (kind t = NotRetriedNonIdempotent \/ kind t = Cancellation)).
  { intros invoked e Hfail Hafter.
    destruct (afterError_cases acquireFailureIsAttempt maxAttempts false n
                (env n) invoked e
                (loop acquireFailureIsAttempt maxAttempts false env fuel (S n)))
      as [[Hc Heq]|(k & err & tail & Heq & _ & _ & Hk)];
      rewrite Heq in Hafter.
    - destruct (loop acquireFailureIsAttempt maxAttempts false env fuel (S n))
        as [o'|] eqn:Hnext; [|discriminate].
      injection Hafter as <-.
      destruct (IH (S n) o' Hnext) as [Hle Hrest].
      unfold prepend; cbn [iterations result].
      split; [lia|].
      intros m e' Hm Hfail' Hcond.
      destruct (Nat.eq_dec m n) as [->|Hne].
      + rewrite Hfail in Hfail'. injection Hfail' as <-.
        apply ShouldContinue_retryable in Hc.
        destruct (conditional_verdicts e Hcond) as [Hf _].
        rewrite Hf in Hc. discriminate.
      + apply Hrest; auto. lia.
    - injection Hafter as <-. cbn [iterations result].
      split; [lia|].
      intros m e' Hm Hfail' Hcond.
      assert (m = n) as -> by lia.
      rewrite Hfail in Hfail'. injection Hfail' as <-.
      split; [reflexivity|].
      exists (mkTerminal k e n). cbn [last attemptCount kind].
      repeat split.
      destruct (ShouldContinue maxAttempts false (Classify e) n (cancelled (env n)))
        eqn:Hc.
      + apply ShouldContinue_retryable in Hc.
        destruct (conditional_verdicts e Hcond) as [Hf _].
        rewrite Hf in Hc. discriminate.
      + rewrite (Hk eq_refl). apply conditional_stopKind; assumption. }
  destruct (acquire (env n)) as [e|] eqn:Hacq.
  - apply (Herr false e); [unfold failure; rewrite Hacq; reflexivity|assumption].
  - destruct (body (env n)) as [e|] eqn:Hbody.
    + apply (Herr true e); [unfold failure; rewrite Hacq; assumption|assumption].
    + injection Hrun as <-. cbn [iterations result].
      split; [lia|].
      intros m e' Hm Hfail' _.
      assert (m = n) as -> by lia.
      unfold failure in Hfail'. rewrite Hacq, Hbody in Hfail'. discriminate.
Qed.

Lemma nonidempotent_retry_surfaces (id : string) :
  exists o,
    SessionPool_Retry acquireFailureIsAttempt maxAttempts id false env = Some o
    /\ surfaced_immediately env o.
Proof.
  unfold SessionPool_Retry, Run.
  destruct (loop_total acquireFailureIsAttempt maxAttempts false env
              (S maxAttempts) 1) as [o Ho]; [lia|].
  rewrite Ho. simpl. eexists; split; [reflexivity|].
  destruct (loop_surfaces _ _ _ Ho) as [_ H].
  intros n e Hn Hfail Hcond. cbn [prepend iterations result] in *.
  apply H; assumption.
Qed.
End NonIdempotent.

Lemma false_never_retries_conditional op :
  Example.never_retries_conditional false op.
Proof.
  split; [reflexivity|].
  intros flag maxAttempts id env.
  apply nonidempotent_retry_surfaces.
Qed.

Lemma AllCalls_calls {error : Type} (P : bool -> Example.Operation -> Prop)
    (p : Example.Prog error) :
  Example.AllCalls P p ->
  forall answers i,
    Forall (fun c => P (fst c) (snd c)) (Example.calls p answers i).
Proof.
  induction 1 as [err|idempotent op k HP _ IH|k _ IH]; intros answers i; simpl.
  - constructor.
  - constructor; [exact HP|apply IH].
  - apply IH.
Qed.

Ltac all_calls :=
  repeat first
    [ apply Example.AllReturn
    | apply Example.AllRows; intros [?|]
    | apply Example.AllRetry;
        [apply false_never_retries_conditional|intros [?|]] ].

(** C10. Every function of the example program that calls
    [SessionPool.Retry] passes idempotent=false at each of its calls,
    whatever the earlier calls answered; so each loop it starts returns
    with a conditionally retryable failure as its last iteration and as
    the error given back. *)
Theorem example_calls_pass_false (path_Join : string -> string -> string)
    (prefix path : string) :
  Forall (fun p =>
            Example.AllCalls Example.never_retries_conditional p
            /\ forall answers,
                 Forall (fun c => fst c = false) (Example.calls p answers 0))
    (Example.callers (error := Classify.error) path_Join prefix path).
Proof.
  assert (H : Forall (Example.AllCalls Example.never_retries_conditional)
                (Example.callers (error := Classify.error) path_Join prefix path)).
  { unfold Example.callers, Example.readTable, Example.describeTableOptions,
      Example.selectSimple, Example.scanQuerySelect,
      Example.fillTablesWithData, Example.createTables, Example.describeTable.
    repeat (apply Forall_cons; [all_calls|]). apply Forall_nil. }
  eapply Forall_impl; [|exact H].
  intros p Hp. split; [exact Hp|].
  intros answers.
  eapply Forall_impl; [|apply (AllCalls_calls _ p Hp answers 0%nat)].
  intros [b op] [Hb _]. exact Hb.
Qed.

(** * Further properties of the code *)

(** ** A whole loop through the logger *)

Section LifecycleFacts.
Context {Logger error : Type} {LA : LoggerAPI Logger} {CL : Classifier error}.
Variable RetryEvents : Z.

Implicit Types (l : Logger) (w : Log.World Logger error).

Lemma added_of_sink w w' (es : list (Entry Logger error)) :
  Log.sink w' = Log.sink w ++ es -> Log.added w w' = es.
Proof.
  intros H. unfold Log.added. rewrite H. clear H.
  induction (Log.sink w) as [|x xs IH]; simpl; auto.
Qed.

Lemma attempt_call_at l id idempotent start
    (c : Z * RetryLoopIntermediateInfo error) w :
  Log.onIntermediate l id idempotent start (snd c) (Log.at_time (fst c) w)
  = (Log.onDone l id idempotent start,
     Log.mkWorld (fst c)
       (Log.sink w ++ [Lifecycle.attempt_line_of l id idempotent start c])).
Proof.
  destruct c as [t [[e|]]]; cbn [fst snd].
  - rewrite onIntermediate_failed. reflexivity.
  - rewrite onIntermediate_done. reflexivity.
Qed.

Lemma done_call_at l id idempotent start (td : Z)
    (d : RetryLoopDoneInfo error) w :
  Log.onDone l id idempotent start d (Log.at_time td w)
  = (tt,
     Log.mkWorld td
       (Log.sink w ++ [Lifecycle.done_line_of l id idempotent start td d])).
Proof.
  destruct d as [n [e|]].
  - rewrite onDone_failed. reflexivity.
  - rewrite onDone_done. reflexivity.
Qed.

(** Feeding the attempt handler a list of calls adds their lines in call
    order and ends with the same done handler. *)
Lemma feed_lines l id idempotent start calls : forall w,
  fst (Lifecycle.feed (Log.onIntermediate l id idempotent start)
         (Log.onDone l id idempotent start) calls w)
  = Log.onDone l id idempotent start
  /\ Log.sink
       (snd (Lifecycle.feed (Log.onIntermediate l id idempotent start)
               (Log.onDone l id idempotent start) calls w))
     = Log.sink w
         ++ map (Lifecycle.attempt_line_of l id idempotent start) calls.
Proof.
  induction calls as [|c calls IH]; intros w; simpl.
  - split; [reflexivity|]. rewrite app_nil_r. reflexivity.
  - rewrite attempt_call_at.
    destruct (IH (Log.mkWorld (fst c)
                    (Log.sink w
                       ++ [Lifecycle.attempt_line_of l id idempotent start c])))
      as [Hd Hs].
    split; [exact Hd|].
    rewrite Hs. simpl. rewrite <- app_assoc. reflexivity.
Qed.

Lemma installed_handler l details h :
  Log.OnRetry (Log.Retry RetryEvents l details) = Some h ->
  h = Log.onRetry (WithName l "retry").
Proof.
  unfold Log.Retry.
  destruct (negb (Z.land details RetryEvents =? 0)); simpl;
    intros H; [injection H as <-; reflexivity|discriminate].
Qed.

(** The sink after a whole loop: what was there, then the start line,
    one line per attempt call in call order, then the done line. *)
Lemma replay_sink l details h t0 sinfo first rest td dinfo w :
  Log.OnRetry (Log.Retry RetryEvents l details) = Some h ->
  Log.sink (Lifecycle.replay h t0 sinfo first rest td dinfo w)
  = Log.sink w
      ++ Lifecycle.start_line_of (WithName l "retry") sinfo
      :: map (Lifecycle.attempt_line_of (WithName l "retry") (ID sinfo)
                (Idempotent sinfo) t0) (first :: rest)
      ++ [Lifecycle.done_line_of (WithName l "retry") (ID sinfo)
            (Idempotent sinfo) t0 td dinfo].
Proof.
  intros Hh. apply installed_handler in Hh. subst h.
  unfold Lifecycle.replay.
  change (Log.onRetry (WithName l "retry") sinfo (Log.at_time t0 w))
    with (Log.onIntermediate (WithName l "retry") (ID sinfo)
            (Idempotent sinfo) t0,
          Log.mkWorld t0
            (Log.sink w ++ [Lifecycle.start_line_of (WithName l "retry") sinfo])).
  cbv beta iota. rewrite attempt_call_at. cbv beta iota.
  match goal with
  | |- context [Lifecycle.feed ?a ?d ?c ?x] =>
      destruct (feed_lines (WithName l "retry") (ID sinfo) (Idempotent sinfo)
                  t0 c x) as [Hd Hs];
      destruct (Lifecycle.feed a d c x) as [dh' w3]
  end.
  simpl in Hd, Hs. subst dh'.
  rewrite done_call_at. simpl. rewrite Hs. simpl.
  rewrite <- !app_assoc. reflexivity.
Qed.

Lemma latency_attempt_line l id idempotent (t0 : Z)
    (c : Z * RetryLoopIntermediateInfo error) :
  Fmt.latency_of (Lifecycle.attempt_line_of l id idempotent t0 c)
  = Some (fst c - t0).
Proof. destruct c as [t [[e|]]]; reflexivity. Qed.

Lemma latency_done_line l id idempotent (t0 td : Z)
    (d : RetryLoopDoneInfo error) :
  Fmt.latency_of (Lifecycle.done_line_of l id idempotent t0 td d)
  = Some (td - t0).
Proof. destruct d as [n [e|]]; reflexivity. Qed.

Lemma sorted_shift (t0 : Z) (ts : list Z) :
  StronglySorted Z.le ts ->
  StronglySorted Z.le (map (fun t => t - t0) ts).
Proof.
  induction 1 as [|t ts Hs IH Hall]; simpl; constructor; [exact IH|].
  apply Forall_map. eapply Forall_impl; [|exact Hall].
  intros u Hu. simpl. lia.
Qed.

(** A whole loop adds one line per event, in call order, after the lines
    that were there: the start line, one line per attempt call, the done
    line; N attempt calls make N + 2 lines. *)
Theorem loop_logs_one_line_per_event l details h t0 sinfo first rest td
    dinfo w :
  Log.OnRetry (Log.Retry RetryEvents l details) = Some h ->
  Log.sink (Lifecycle.replay h t0 sinfo first rest td dinfo w)
  = Log.sink w
      ++ Lifecycle.start_line_of (WithName l "retry") sinfo
      :: map (Lifecycle.attempt_line_of (WithName l "retry") (ID sinfo)
                (Idempotent sinfo) t0) (first :: rest)
      ++ [Lifecycle.done_line_of (WithName l "retry") (ID sinfo)
            (Idempotent sinfo) t0 td dinfo]
  /\ length (Log.added w (Lifecycle.replay h t0 sinfo first rest td dinfo w))
     = (length (first :: rest) + 2)%nat.
Proof.
  intros Hh.
  pose proof (replay_sink l details h t0 sinfo first rest td dinfo w Hh) as Hs.
  split; [exact Hs|].
  rewrite (added_of_sink _ _ _ Hs).
  simpl. rewrite length_app, length_map. simpl. lia.
Qed.

(** When the clock readings of the calls do not go back, the latencies
    shown after the start line are non-negative and never decrease: each
    is the time since the loop started. *)
Theorem loop_latencies_sorted l details h t0 sinfo first rest td dinfo w :
  Log.OnRetry (Log.Retry RetryEvents l details) = Some h ->
  StronglySorted Z.le (t0 :: map fst (first :: rest) ++ [td]) ->
  exists ds,
    map Fmt.latency_of
      (Log.added w (Lifecycle.replay h t0 sinfo first rest td dinfo w))
    = None :: map Some ds
    /\ ds = map (fun t => t - t0) (map fst (first :: rest) ++ [td])
    /\ StronglySorted Z.le (0 :: ds).
Proof.
  intros Hh Hsorted.
  pose proof (replay_sink l details h t0 sinfo first rest td dinfo w Hh) as Hs.
  exists (map (fun t => t - t0) (map fst (first :: rest) ++ [td])).
  split; [|split; [reflexivity|]].
  - rewrite (added_of_sink _ _ _ Hs).
    change (map Fmt.latency_of (?x :: ?r)) with (None (A := Z) :: map Fmt.latency_of r).
    f_equal.
    generalize (first :: rest) as cs. intros cs.
    induction cs as [|c cs IH]; cbn [map app].
    + rewrite latency_done_line. reflexivity.
    + rewrite latency_attempt_line, IH. reflexivity.
  - apply (sorted_shift t0) in Hsorted.
    cbn [map] in Hsorted. rewrite Z.sub_diag in Hsorted. exact Hsorted.
Qed.

(** Every line of a loop is well formed for package [fmt]: as many
    operands as the format has verbs, an integer under [d], a string or
    an error under [s]. *)
Theorem loop_lines_well_formed l details h t0 sinfo first rest td dinfo w :
  Log.OnRetry (Log.Retry RetryEvents l details) = Some h ->
  Forall (fun line => Fmt.well_formed line = true)
    (Log.added w (Lifecycle.replay h t0 sinfo first rest td dinfo w)).
Proof.
  intros Hh.
  rewrite (added_of_sink _ _ _
             (replay_sink l details h t0 sinfo first rest td dinfo w Hh)).
  constructor; [reflexivity|].
  apply Forall_app; split.
  - apply Forall_map, Forall_forall. intros [t [[e|]]] _; reflexivity.
  - constructor; [|constructor]. destruct dinfo as [n [e|]]; reflexivity.
Qed.

(** Every line of a loop carries the id of its loop-start event in its
    id field, so the lines of one loop can be correlated. *)
Theorem loop_lines_carry_id l details h t0 sinfo first rest td dinfo w :
  Log.OnRetry (Log.Retry RetryEvents l details) = Some h ->
  Forall (fun line => field "id" line = Some (AString (ID sinfo)))
    (Log.added w (Lifecycle.replay h t0 sinfo first rest td dinfo w)).
Proof.
  intros Hh.
  rewrite (added_of_sink _ _ _
             (replay_sink l details h t0 sinfo first rest td dinfo w Hh)).
  constructor; [reflexivity|].
  apply Forall_app; split.
  - apply Forall_map, Forall_forall. intros [t [[e|]]] _; reflexivity.
  - constructor; [|constructor]. destruct dinfo as [n [e|]]; reflexivity.
Qed.

(** Both failure lines show, in this order and nothing else, the id, the
    latency, (for the done line) the attempts, the error itself, the
    retry verdict, the status code and the delete-session verdict. *)
Theorem failure_lines_fields l details info w0 ah w1 ainfo w' n e w :
  Log.started RetryEvents l details info w0 ah w1 ->
  (exists line,
      Log.added w (snd (ah (mkIntermediate (Some e)) w)) = [line]
      /\ fields line
         = [("id", AString (ID info));
            ("latency", ADuration (Log.clock w - Log.clock w0));
            ("error", AError e);
            ("retryable", ABool (MustRetry (Check e) (Idempotent info)));
            ("code", AInt (StatusCode (Check e)));
            ("deleteSession", ABool (MustDeleteSession (Check e)))])
  /\ (exists line,
      Log.added w (snd (fst (ah ainfo w') (mkDone n (Some e)) w)) = [line]
      /\ fields line
         = [("id", AString (ID info));
            ("latency", ADuration (Log.clock w - Log.clock w0));
            ("attempts", AInt n);
            ("error", AError e);
            ("retryable", ABool (MustRetry (Check e) (Idempotent info)));
            ("code", AInt (StatusCode (Check e)));
            ("deleteSession", ABool (MustDeleteSession (Check e)))]).
Proof.
  intros H. apply started_inv in H. destruct H as (_ & -> & _).
  split.
  - rewrite onIntermediate_failed; simpl.
    eexists; split; [apply added_app|reflexivity].
  - rewrite intermediate_returns_onDone, onDone_failed; simpl.
    eexists; split; [apply added_app|reflexivity].
Qed.

(** Or-ing the flag into any details installs the observer, and-not-ing
    it out removes it, and the observer installed is the same whatever
    the other bits are. *)
Theorem details_flag_set_and_clear l (d : Z) :
  RetryEvents <> 0 ->
  Log.OnRetry (Log.Retry RetryEvents l (Z.lor d RetryEvents))
  = Some (Log.onRetry (WithName l "retry"))
  /\ Log.OnRetry (Log.Retry RetryEvents l (Z.land d (Z.lnot RetryEvents)))
     = None
  /\ forall d', Z.land d' RetryEvents <> 0 ->
       Log.Retry RetryEvents l d'
       = Log.Retry RetryEvents l (Z.lor d RetryEvents).
Proof.
  intros Hflag.
  assert (Hset : Z.land (Z.lor d RetryEvents) RetryEvents = RetryEvents).
  { apply Z.bits_inj'. intros n _.
    rewrite Z.land_spec, Z.lor_spec.
    destruct (Z.testbit d n), (Z.testbit RetryEvents n); reflexivity. }
  assert (Hclear : Z.land (Z.land d (Z.lnot RetryEvents)) RetryEvents = 0).
  { apply Z.bits_inj'. intros n Hn.
    rewrite !Z.land_spec, Z.lnot_spec, Z.bits_0 by exact Hn.
    destruct (Z.testbit d n), (Z.testbit RetryEvents n); reflexivity. }
  unfold Log.Retry. rewrite Hset, Hclear.
  destruct (Z.eqb_spec RetryEvents 0) as [|_]; [contradiction|].
  repeat split.
  intros d' Hd'.
  destruct (Z.eqb_spec (Z.land d' RetryEvents) 0); [contradiction|reflexivity].
Qed.

End LifecycleFacts.

Lemma demo_installed :
  Log.OnRetry (Log.Retry Demo.sampleRetryEvents Demo.l0 Demo.details_on)
  = Some Demo.h0.
Proof. reflexivity. Defined.

Lemma loop_logs_one_line_per_event_witness :
  Log.sink
    (Lifecycle.replay Demo.h0 0 Demo.info0
       (5, mkIntermediate (Some Demo.overloaded)) [(10, mkIntermediate None)]
       12 (mkDone 2 None) Demo.w0)
  = Log.sink Demo.w0
      ++ Lifecycle.start_line_of ["ydb"; "retry"] Demo.info0
      :: map (Lifecycle.attempt_line_of ["ydb"; "retry"] "loop-1" false 0)
           [(5, mkIntermediate (Some Demo.overloaded));
            (10, mkIntermediate None)]
      ++ [Lifecycle.done_line_of ["ydb"; "retry"] "loop-1" false 0 12
            (mkDone 2 None)]
  /\ length
       (Log.added Demo.w0
          (Lifecycle.replay Demo.h0 0 Demo.info0
             (5, mkIntermediate (Some Demo.overloaded))
             [(10, mkIntermediate None)] 12 (mkDone 2 None) Demo.w0))
     = 4%nat.
Proof.
  exact (loop_logs_one_line_per_event Demo.sampleRetryEvents Demo.l0
           Demo.details_on Demo.h0 0 Demo.info0
           (5, mkIntermediate (Some Demo.overloaded))
           [(10, mkIntermediate None)] 12 (mkDone 2 None) Demo.w0
           demo_installed).
Defined.

Lemma demo_times_sorted :
  StronglySorted Z.le
    (0 :: map fst [(5, mkIntermediate (Some Demo.overloaded));
                   (10, mkIntermediate (error := Classify.error) None)]
       ++ [12]).
Proof.
  simpl. repeat constructor; lia.
Defined.

Lemma loop_latencies_sorted_witness :
  exists ds,
    map Fmt.latency_of
      (Log.added Demo.w0
         (Lifecycle.replay Demo.h0 0 Demo.info0
            (5, mkIntermediate (Some Demo.overloaded))
            [(10, mkIntermediate None)] 12 (mkDone 2 None) Demo.w0))
    = None :: map Some ds
    /\ ds = [5; 10; 12]
    /\ StronglySorted Z.le (0 :: ds).
Proof.
  exact (loop_latencies_sorted Demo.sampleRetryEvents Demo.l0
           Demo.details_on Demo.h0 0 Demo.info0
           (5, mkIntermediate (Some Demo.overloaded))
           [(10, mkIntermediate None)] 12 (mkDone 2 None) Demo.w0
           demo_installed demo_times_sorted).
Defined.

Lemma loop_lines_well_formed_witness :
  Forall (fun line => Fmt.well_formed line = true)
    (Log.added Demo.w0
       (Lifecycle.replay Demo.h0 0 Demo.info0
          (5, mkIntermediate (Some Demo.conflict)) [] 6
          (mkDone 1 (Some Demo.conflict)) Demo.w0)).
Proof.
  exact (loop_lines_well_formed Demo.sampleRetryEvents Demo.l0
           Demo.details_on Demo.h0 0 Demo.info0
           (5, mkIntermediate (Some Demo.conflict)) [] 6
           (mkDone 1 (Some Demo.conflict)) Demo.w0 demo_installed).
Defined.

Lemma loop_lines_carry_id_witness :
  Forall (fun line => field "id" line = Some (AString "loop-1"))
    (Log.added Demo.w0
       (Lifecycle.replay Demo.h0 0 Demo.info0
          (5, mkIntermediate (Some Demo.conflict)) [] 6
          (mkDone 1 (Some Demo.conflict)) Demo.w0)).
Proof.
  exact (loop_lines_carry_id Demo.sampleRetryEvents Demo.l0
           Demo.details_on Demo.h0 0 Demo.info0
           (5, mkIntermediate (Some Demo.conflict)) [] 6
           (mkDone 1 (Some Demo.conflict)) Demo.w0 demo_installed).
Defined.

Lemma failure_lines_fields_witness :
  (exists line,
      Log.added Demo.w1
        (snd (Demo.ah0 (mkIntermediate (Some Demo.conflict)) Demo.w1)) = [line]
      /\ fields line
         = [("id", AString "loop-1"); ("latency", ADuration 0);
            ("error", AError Demo.conflict); ("retryable", ABool false);
            ("code", AInt 400040); ("deleteSession", ABool false)])
  /\ (exists line,
      Log.added Demo.w1
        (snd (fst (Demo.ah0 (mkIntermediate None) Demo.w1)
                (mkDone 1 (Some Demo.conflict)) Demo.w1)) = [line]
      /\ fields line
         = [("id", AString "loop-1"); ("latency", ADuration 0);
            ("attempts", AInt 1);
            ("error", AError Demo.conflict); ("retryable", ABool false);
            ("code", AInt 400040); ("deleteSession", ABool false)]).
Proof.
  exact (failure_lines_fields Demo.sampleRetryEvents Demo.l0 Demo.details_on
           Demo.info0 Demo.w0 Demo.ah0 Demo.w1 (mkIntermediate None) Demo.w1
           1 Demo.conflict Demo.w1 demo_started0).
Defined.

Lemma details_flag_set_and_clear_witness :
  Log.OnRetry (Log.Retry Demo.sampleRetryEvents Demo.l0 (Z.lor 3 256))
  = Some (Log.onRetry ["ydb"; "retry"])
  /\ Log.OnRetry
       (Log.Retry Demo.sampleRetryEvents Demo.l0 (Z.land 3 (Z.lnot 256)))
     = None
  /\ forall d', Z.land d' 256 <> 0 ->
       Log.Retry Demo.sampleRetryEvents Demo.l0 d'
       = Log.Retry Demo.sampleRetryEvents Demo.l0 (Z.lor 3 256).
Proof.
  assert (H : Demo.sampleRetryEvents <> 0) by discriminate.
  exact (details_flag_set_and_clear Demo.sampleRetryEvents Demo.l0 3 H).
Defined.

(** ** The example program, run *)

Section ExampleFacts.
Context {error : Type}.
Variable path_Join : string -> string -> string.

Ltac run_steps answers :=
  intros answers; cbn;
  destruct (answers 0%nat) eqn:E0; cbn;
  try (destruct (answers 1%nat) eqn:E1; cbn);
  try (destruct (answers 2%nat) eqn:E2; cbn);
  repeat split; try lia; try congruence;
  intros [|[|j]] Hj; try lia; assumption.

(** Every function of the example stops at the first step that fails,
    be it [sp.Retry] or reading the rows, and returns that error
    unchanged; it returns nil only when every step it took succeeded. *)
Theorem callers_stop_at_first_error (prefix path : string) :
  Forall (ExampleRun.stops_at_first_error (error := error))
    (Example.callers path_Join prefix path).
Proof.
  unfold Example.callers.
  repeat (apply Forall_cons; [|]); try apply Forall_nil;
    unfold ExampleRun.stops_at_first_error, Example.readTable,
      Example.describeTableOptions, Example.selectSimple,
      Example.scanQuerySelect, Example.fillTablesWithData,
      Example.createTables, Example.describeTable;
    run_steps answers.
Qed.

(** [createTables] creates series, seasons and episodes in this order
    and stops after the first table that fails: it calls [sp.Retry] for
    a prefix of the three, all three exactly when the first two
    succeeded, and fewer only with an error to return. *)
Theorem createTables_in_order (prefix : string)
    (answers : nat -> option error) :
  let p := Example.createTables path_Join prefix in
  let n := ExampleRun.steps p answers 0 in
  Example.calls p answers 0
  = firstn n (ExampleRun.tables path_Join prefix)
  /\ (answers 0%nat = None /\ answers 1%nat = None <-> n = 3%nat)
  /\ ((n < 3)%nat -> exists e, ExampleRun.result p answers 0 = Some e).
Proof.
  cbn. unfold Example.createTables.
  destruct (answers 0%nat) as [e0|] eqn:E0; cbn;
    [|destruct (answers 1%nat) as [e1|] eqn:E1; cbn];
    (split; [reflexivity|split; [split|]]);
    try (intros [H0 H1]; discriminate);
    try (intros H; exfalso; lia);
    try (intros _; eauto; fail);
    auto.
Qed.

End ExampleFacts.

(** ** The presets printed *)

Section PresetFacts.
Context {error Preset : Type}.

Lemma rangeFrom_length (fmt : string) (total : Z) (l : list Preset) :
  forall i, length (Presets.rangeFrom fmt total i l) = length l.
Proof. induction l as [|p l IH]; intros i; simpl; auto. Qed.

(** The line at position [k] of a range shows the counter [i + k + 1]. *)
Lemma rangeFrom_nth (fmt : string) (total : Z) (l : list Preset) :
  forall i k p,
    nth_error l k = Some p ->
    nth_error (Presets.rangeFrom fmt total i l) k
    = Some (Presets.Printf fmt
              [Presets.PInt (i + Z.of_nat k + 1); Presets.PInt total;
               Presets.PValue p]).
Proof.
  induction l as [|q l IH]; intros i k p Hk.
  - destruct k; discriminate.
  - destruct k as [|k]; cbn [nth_error Presets.rangeFrom] in *.
    + injection Hk as ->. rewrite Z.add_0_r. reflexivity.
    + rewrite (IH (i + 1) k p Hk).
      replace (i + 1 + Z.of_nat k + 1) with (i + Z.of_nat (S k) + 1) by lia.
      reflexivity.
Qed.

Lemma rangeFrom_shown (fmt : string) (total : Z) (l : list Preset) :
  forall i,
    Forall (fun pr => exists k,
                Presets.shown pr = Some (k, total)
                /\ i + 1 <= k <= i + Z.of_nat (length l))
      (Presets.rangeFrom fmt total i l).
Proof.
  induction l as [|p l IH]; intros i; simpl; constructor.
  - exists (i + 1). split; [reflexivity|lia].
  - eapply Forall_impl; [|apply (IH (i + 1))].
    intros pr (k & Hk & Hrange). exists k. split; [exact Hk|lia].
Qed.

Lemma printPresets_shown (name : string) (l : list Preset) :
  Forall (fun pr => exists k n, Presets.shown pr = Some (k, n) /\ 1 <= k <= n)
    (Presets.printPresets name l).
Proof.
  unfold Presets.printPresets.
  eapply Forall_impl; [|apply rangeFrom_shown].
  intros pr (k & Hk & Hrange). exists k, (Z.of_nat (length l)).
  split; [exact Hk|lia].
Qed.


End PresetFacts.
